(** * Product CRUD service: the handlers of [main.py] over a model of the
      SQLAlchemy session and the [product] table.

    The service keeps one relational table, [product], whose primary key is the
    column [id] ([db_models.py]).  Every request handler of [main.py] works on
    a session obtained from [config.session]: objects are added, loaded,
    assigned to or deleted in the session, and [commit] writes the unit of work
    to the table in one transaction.

    The storage engine and the ORM are outside the repository.  They are
    modelled here as far as the handlers observe them:
    - the table is a finite map from primary key to row, so that two rows never
      share an [id];
    - a session holds the pending inserts, the identity map of loaded objects
      and the set of objects marked for deletion; nothing reaches the table
      before [commit], and a [commit] that fails leaves the table as it was;
    - every round trip to the engine (a query or a commit) can fail: a list of
      booleans in the world says which of the coming round trips do.

    An [Integer] column does not hold every integer a request can carry: a
    value outside the signed 64-bit range cannot be stored, and the INSERT
    or UPDATE that carries it fails, nothing being written.  That range is
    the widest an engine gives the column; an engine with a narrower one
    refuses more values, in the same way.  A query only compares the key
    with the id it is given, which can be any integer.

    Column widths ([String(255)]), the single precision of a [Float] column,
    the engine's own numbering of an auto-increment key and the text of the
    driver's error messages are properties of the engine and are not
    modelled: a string or a float is stored as it is given, and a row under
    the id it is given with.  Requests are served one at a time. *)

From Stdlib Require Import ZArith String List.
From Stdlib Require Import PrimFloat.
From stdpp Require Import gmap strings pretty.

(** A decimal literal of type [float] denotes the nearest binary64 value, as
    the same literal does in Python. *)
Set Warnings "-inexact-float".

Local Open Scope Z_scope.

(** ** The two schemas *)

(** [models.py]: the Pydantic model of a request body. *)
Module models.
Record Product : Type := mkProduct {
  id : Z;
  name : string;
  description : string;
  price : float;
  quantity : Z
}.
End models.

(** [db_models.py]: the mapped class of the [product] table. *)
Module db_models.
Record Product : Type := mkProduct {
  id : Z;            (* Column(Integer, primary_key=True, index=True) *)
  name : string;     (* Column(String(255)) *)
  description : string;
  price : float;     (* Column(Float) *)
  quantity : Z       (* Column(Integer) *)
}.

(** [db_models.Product( **product.model_dump())]: [model_dump] gives the
    dictionary of the five fields, and the declarative constructor assigns
    each keyword to the column of the same name. *)
Definition of_model_dump (product : models.Product) : Product :=
  {| id := models.id product;
     name := models.name product;
     description := models.description product;
     price := models.price product;
     quantity := models.quantity product |}.

(** Attribute assignment on a loaded object. *)
Definition set_name (v : string) (o : Product) : Product :=
  {| id := id o; name := v; description := description o;
     price := price o; quantity := quantity o |}.
Definition set_description (v : string) (o : Product) : Product :=
  {| id := id o; name := name o; description := v;
     price := price o; quantity := quantity o |}.
Definition set_price (v : float) (o : Product) : Product :=
  {| id := id o; name := name o; description := description o;
     price := v; quantity := quantity o |}.
Definition set_quantity (v : Z) (o : Product) : Product :=
  {| id := id o; name := name o; description := description o;
     price := price o; quantity := v |}.

(** The integers an [Integer] column takes. *)
Definition Integer_fits (n : Z) : bool :=
  (-9223372036854775808 <=? n) && (n <=? 9223372036854775807).
End db_models.

(** ** Strings *)

(** Python's [str] on an [int], as an f-string field [{id}] formats it:
    decimal digits, with a leading minus sign for a negative number. *)
Definition str_int (n : Z) : string := pretty n.

(** Python's [sub in s] on strings. *)
Definition contains (s sub : string) : Prop :=
  ∃ pre post : string, s = pre +:+ sub +:+ post.

(** ** The world: table, session, failures, console *)

(** A loaded object is referred to by its identity in the session, which is
    its primary key: two lookups of the same row give the same object. *)
Definition obj := Z.

(** A session of [sessionmaker(autocommit=False, autoflush=False)]. *)
Record Session : Type := mkSession {
  new : list db_models.Product;           (* added, not yet inserted *)
  identity : gmap Z db_models.Product;    (* loaded objects, as assigned to *)
  dirty : gset Z;                         (* objects that were assigned to *)
  deleted : gset Z;                       (* marked by [delete] *)
  live : bool                             (* false once closed *)
}.

Inductive exn : Type :=
  | IntegrityError (k : Z)     (* INSERT of a primary key that is taken *)
  | OperationalError           (* the engine could not be reached *)
  | DetachedInstanceError      (* attribute access on an unknown object *)
  | DataError.                 (* an integer outside the column's range *)

(** A line on the console: a text, or a text followed by the message of an
    exception, as [f"...{e}"] prints it.  The message is the driver's own
    and is kept as the exception it belongs to. *)
Inductive line : Type :=
  | Line (s : string)
  | LineExn (s : string) (e : exn).

Record World : Type := mkWorld {
  table : gmap Z db_models.Product;   (* committed rows, by primary key *)
  db : Session;            (* the session the running code holds *)
  faults : list bool;      (* which of the coming round trips fail *)
  stdout : list line       (* lines printed, oldest first *)
}.

Inductive outcome (A : Type) : Type :=
  | Ok (a : A)
  | Raise (e : exn).
Arguments Ok {A} a.
Arguments Raise {A} e.

(** A computation runs in a world and returns normally or raises. *)
Definition M (A : Type) : Type := World → outcome A * World.

Definition ret {A} (a : A) : M A := λ w, (Ok a, w).

Definition bind {A B} (m : M A) (k : A → M B) : M B := λ w,
  match m w with
  | (Ok a, w') => k a w'
  | (Raise e, w') => (Raise e, w')
  end.

Definition raise {A} (e : exn) : M A := λ w, (Raise e, w).

(** [try: body except Exception as e: handler e]. *)
Definition try_except {A} (body : M A) (handler : exn → M A) : M A := λ w,
  match body w with
  | (Ok a, w') => (Ok a, w')
  | (Raise e, w') => handler e w'
  end.

(** [try: body finally: fin]: [fin] runs on every exit of [body]; the result
    is that of [body] unless [fin] itself raises. *)
Definition try_finally {A} (body : M A) (fin : M unit) : M A := λ w,
  match body w with
  | (r, w') =>
      match fin w' with
      | (Ok _, w'') => (r, w'')
      | (Raise e, w'') => (Raise e, w'')
      end
  end.

Declare Scope py_scope.
Delimit Scope py_scope with py.
Notation "x ← m ; k" := (bind m (λ x, k)) : py_scope.
Notation "m ;; k" := (bind m (λ _, k)) : py_scope.
Local Open Scope py_scope.

(** [for x in l: body x]. *)
Fixpoint for_each {A} (l : list A) (body : A → M unit) : M unit :=
  match l with
  | [] => ret tt
  | x :: l' => body x ;; for_each l' body
  end.

Definition print (l : line) : M unit := λ w,
  (Ok tt, {| table := table w; db := db w; faults := faults w;
             stdout := stdout w ++ [l] |}).

(** ** The session *)

Definition set_db (s : Session) (w : World) : World :=
  {| table := table w; db := s; faults := faults w; stdout := stdout w |}.

Definition set_table (t : gmap Z db_models.Product) (w : World) : World :=
  {| table := t; db := db w; faults := faults w; stdout := stdout w |}.

(** A session with an empty unit of work. *)
Definition blank (l : bool) : Session :=
  {| new := []; identity := ∅; dirty := ∅; deleted := ∅; live := l |}.

(** [db = session()]: the factory builds a session; no connection is taken
    before the first query. *)
Definition session : M unit := λ w, (Ok tt, set_db (blank true) w).

(** One round trip to the engine: the head of [faults] says whether it fails. *)
Definition round_trip : M unit := λ w,
  match faults w with
  | true :: fs =>
      (Raise OperationalError,
       {| table := table w; db := db w; faults := fs; stdout := stdout w |})
  | false :: fs =>
      (Ok tt, {| table := table w; db := db w; faults := fs; stdout := stdout w |})
  | [] => (Ok tt, w)
  end.

(** Rows fetched by a query become objects of the session; an object that is
    loaded already keeps its state. *)
Definition load (fetched : gmap Z db_models.Product) : M unit := λ w,
  let s := db w in
  (Ok tt, set_db {| new := new s; identity := identity s ∪ fetched;
                    dirty := dirty s; deleted := deleted s;
                    live := live s |} w).

(** [db.query(db_models.Product).count()]. *)
Definition query_count : M Z :=
  round_trip ;; λ w, (Ok (Z.of_nat (size (table w))), w).

(** [db.query(db_models.Product).all()]: the objects, in the engine's order. *)
Definition query_all : M (list obj) :=
  round_trip ;;
  λ w, (load (table w) ;; ret (map_to_list (table w)).*1) w.

(** [db.query(db_models.Product).filter(db_models.Product.id == id).first()]. *)
Definition query_filter_id_first (id : Z) : M (option obj) :=
  round_trip ;;
  λ w, match table w !! id with
       | Some r => (load {[ id := r ]} ;; ret (Some id)) w
       | None => (Ok None, w)
       end.

(** Reading the attributes of an object, as the response encoder does. *)
Definition getobj (o : obj) : M db_models.Product := λ w,
  match identity (db w) !! o with
  | Some r => (Ok r, w)
  | None => raise DetachedInstanceError w
  end.

(** [o.attr = v], with [f] the assignment; the object is now to be written. *)
Definition setattr (f : db_models.Product → db_models.Product) (o : obj) : M unit := λ w,
  let s := db w in
  match identity s !! o with
  | Some r =>
      (Ok tt, set_db {| new := new s; identity := <[ o := f r ]> (identity s);
                        dirty := {[ o ]} ∪ dirty s; deleted := deleted s;
                        live := live s |} w)
  | None => raise DetachedInstanceError w
  end.

(** [db.add(r)]. *)
Definition add (r : db_models.Product) : M unit := λ w,
  let s := db w in
  (Ok tt, set_db {| new := new s ++ [r]; identity := identity s;
                    dirty := dirty s; deleted := deleted s;
                    live := live s |} w).

(** [db.delete(o)]. *)
Definition delete_obj (o : obj) : M unit := λ w,
  let s := db w in
  (Ok tt, set_db {| new := new s; identity := identity s;
                    dirty := dirty s; deleted := {[ o ]} ∪ deleted s;
                    live := live s |} w).

(** The flush of a unit of work: UPDATE of the objects that were assigned
    to, INSERT of the added objects in the order of [add], DELETE of the
    marked ones.  A statement is refused when an integer it carries does not
    fit its column: an UPDATE carries the columns assigned (of them
    [quantity] is an integer; the key is not among them), an INSERT all
    five.  An INSERT whose integers fit is refused when the key is taken. *)
Definition assigned_objects (s : Session) : gmap Z db_models.Product :=
  filter (λ kr, kr.1 ∈ dirty s) (identity s).

Definition flush_updates (upd t : gmap Z db_models.Product)
    : exn + gmap Z db_models.Product :=
  if decide (map_Forall
               (λ _ r, db_models.Integer_fits (db_models.quantity r) = true)
               upd)
  then inr (map_imap (λ k r, Some (default r (upd !! k))) t)
  else inl DataError.

Fixpoint flush_inserts (l : list db_models.Product) (t : gmap Z db_models.Product)
    : exn + gmap Z db_models.Product :=
  match l with
  | [] => inr t
  | r :: l' =>
      if db_models.Integer_fits (db_models.id r)
         && db_models.Integer_fits (db_models.quantity r)
      then
        match t !! db_models.id r with
        | Some _ => inl (IntegrityError (db_models.id r))
        | None => flush_inserts l' (<[ db_models.id r := r ]> t)
        end
      else inl DataError
  end.

Definition flush_deletes (d : gset Z) (t : gmap Z db_models.Product) : gmap Z db_models.Product :=
  filter (λ kr, kr.1 ∉ d) t.

Definition flush (s : Session) (t : gmap Z db_models.Product)
    : exn + gmap Z db_models.Product :=
  match flush_updates (assigned_objects s) t with
  | inl e => inl e
  | inr t1 =>
      match flush_inserts (new s) t1 with
      | inl e => inl e
      | inr t2 => inr (flush_deletes (deleted s) t2)
      end
  end.

(** [db.commit()]: the unit of work reaches the table in one transaction or
    not at all; either way the session starts over with an empty one. *)
Definition commit : M unit := λ w,
  match round_trip w with
  | (Raise e, w') => (Raise e, set_db (blank (live (db w'))) w')
  | (Ok _, w') =>
      match flush (db w') (table w') with
      | inl e => (Raise e, set_db (blank (live (db w'))) w')
      | inr t' => (Ok tt, set_table t' (set_db (blank (live (db w'))) w'))
      end
  end.

(** [db.rollback()]: the unit of work is dropped. *)
Definition rollback : M unit := λ w,
  (Ok tt, set_db (blank (live (db w))) w).

(** [db.close()]: the unit of work is dropped and the session released. *)
Definition close : M unit := λ w, (Ok tt, set_db (blank false) w).

(** ** [main.py] *)

(** What a handler returns, before FastAPI encodes it. *)
Inductive response : Type :=
  | Text (s : string)                          (* a [str] *)
  | Row (r : db_models.Product)                (* one mapped object *)
  | Rows (l : list db_models.Product)          (* a list of mapped objects *)
  | Echo (product : models.Product).           (* the request body itself *)

(** A mapped object in a response is encoded from its attributes. *)
Fixpoint encode_all (l : list obj) : M (list db_models.Product) :=
  match l with
  | [] => ret []
  | o :: l' => r ← getobj o ; rs ← encode_all l' ; ret (r :: rs)
  end.

Definition greet : M response := ret (Text "This is Malay").

(** The dependency [get_db]: a session for one request, closed in [finally]
    after the handler, however the handler ends. *)
Definition get_db {A} (endpoint : M A) : M A :=
  session ;; try_finally endpoint close.

(** The literal of [init_db].  The prices 740000 and 52 are written as
    integers in the source and stored in a [Float] column. *)
Definition sample_products : list db_models.Product :=
  [ db_models.mkProduct 1 "phone" "samsung" 54000.3%float 15;
    db_models.mkProduct 4 "Laptop" "samsung" 740000%float 5;
    db_models.mkProduct 3 "Charger" "Mobile Charger" 52%float 32 ].

(** [init_db], called once when the module is loaded.  The early [return] of
    the source leaves the [try] through [finally], so [close] runs a second
    time on that path. *)
Definition init_db : M unit :=
  session ;;
  try_finally
    (try_except
       (existing_count ← query_count ;
        if 0 <? existing_count then
          print (Line ("Database already has " +:+ str_int existing_count
                       +:+ " products. Skipping initialization.")) ;;
          close
        else
          print (Line "Initializing database with sample data...") ;;
          for_each sample_products (λ product_data, add product_data) ;;
          commit ;;
          print (Line "Database initialized successfully!"))
       (λ e,
          print (LineExn "Error initializing database: " e) ;;
          rollback))
    close.

Definition get_all_products : M response :=
  db_products ← query_all ;
  l ← encode_all db_products ;
  ret (Rows l).

Definition get_product_by_id (id : Z) : M response :=
  db_product ← query_filter_id_first id ;
  match db_product with
  | Some o => r ← getobj o ; ret (Row r)
  | None =>
      ret (Text ("Product with id " +:+ str_int id
                 +:+ " not found, please verify the id, or try by name."))
  end.

(** [add_product] has no parameter for the [{id}] of its path. *)
Definition add_product (product : models.Product) : M response :=
  add (db_models.of_model_dump product) ;;
  commit ;;
  ret (Echo product).

Definition update_product (id : Z) (product : models.Product) : M response :=
  db_product ← query_filter_id_first id ;
  match db_product with
  | Some o =>
      setattr (db_models.set_name (models.name product)) o ;;
      setattr (db_models.set_description (models.description product)) o ;;
      setattr (db_models.set_price (models.price product)) o ;;
      setattr (db_models.set_quantity (models.quantity product)) o ;;
      commit ;;
      ret (Text ("Information for product id: " +:+ str_int id +:+ " and name: "
                 +:+ models.name product +:+ " updated"))
  | None => ret (Text ("No product with id " +:+ str_int id +:+ " found"))
  end.

Definition delete_product_from_id (id : Z) : M response :=
  db_product ← query_filter_id_first id ;
  match db_product with
  | Some o =>
      delete_obj o ;;
      commit ;;
      ret (Text ("Product with id " +:+ str_int id +:+ " deleted successfully."))
  | None =>
      ret (Text ("Product Not found, please check the " +:+ str_int id +:+ " again"))
  end.

(** The routes.  The path parameter of the POST route is not declared by its
    handler, so it is not converted and any path segment matches. *)
Inductive request : Type :=
  | GET_root
  | GET_products
  | GET_products_id (id : Z)
  | POST_products (id : string) (product : models.Product)
  | PUT_products (id : Z) (product : models.Product)
  | DELETE_products_del_id (id : Z).

Definition app (rq : request) : M response :=
  match rq with
  | GET_root => greet
  | GET_products => get_db get_all_products
  | GET_products_id id => get_db (get_product_by_id id)
  | POST_products _ product => get_db (add_product product)
  | PUT_products id product => get_db (update_product id product)
  | DELETE_products_del_id id => get_db (delete_product_from_id id)
  end.

(** ** Running the service *)

(** The world of a process that finds table [t]; [fs] are the failures to
    come.  No session exists yet. *)
Definition boot (t : gmap Z db_models.Product) (fs : list bool) : World :=
  {| table := t; db := blank false; faults := fs; stdout := [] |}.

(** One request against table [t] on reliable storage: what the client gets
    and the table afterwards. *)
Definition serve (rq : request) (t : gmap Z db_models.Product)
    : outcome response * gmap Z db_models.Product :=
  let '(r, w) := app rq (boot t []) in (r, table w).

(** Process start against table [t] on reliable storage: the table afterwards. *)
Definition startup (t : gmap Z db_models.Product) : gmap Z db_models.Product :=
  table (init_db (boot t [])).2.

(** The table that seeding writes. *)
Definition seeded : gmap Z db_models.Product := startup ∅.

(** The rows that seeding writes, by key, and the invariant of the table:
    every row is stored under its own [id]. *)
Definition phone : db_models.Product :=
  db_models.mkProduct 1 "phone" "samsung" 54000.3%float 15.
Definition charger : db_models.Product :=
  db_models.mkProduct 3 "Charger" "Mobile Charger" 52%float 32.
Definition laptop : db_models.Product :=
  db_models.mkProduct 4 "Laptop" "samsung" 740000%float 5.

Definition keyed (t : gmap Z db_models.Product) : Prop :=
  ∀ k r, t !! k = Some r → db_models.id r = k.

(** The row at [id] after the four assignments of [update_product]. *)
Definition assigned (product : models.Product) (r : db_models.Product)
    : db_models.Product :=
  db_models.set_quantity (models.quantity product)
    (db_models.set_price (models.price product)
      (db_models.set_description (models.description product)
        (db_models.set_name (models.name product) r))).

(** A computation that leaves the committed table alone, whatever it
    returns or raises. *)
Definition reads_only {A} (m : M A) : Prop :=
  ∀ w, table (m w).2 = table w.

(** The payloads of the examples: a create with a fresh id, an update of the
    row under id 1 with a new name, the same with a payload id that is not
    the path id, and the table after the create. *)
Definition mouse : models.Product :=
  models.mkProduct 2 "Mouse" "wireless" 20%float 100.
Definition phone_pro : models.Product :=
  models.mkProduct 1 "Phone Pro" "samsung" 54000.3%float 15.
Definition phone_pro_9 : models.Product :=
  models.mkProduct 9 "Phone Pro" "samsung" 54000.3%float 15.

(** ** Histories, targets, clean failure *)

(** Requests served one after the other on reliable storage: the table at
    the end. *)
Fixpoint serve_all (rqs : list request) (t : gmap Z db_models.Product)
    : gmap Z db_models.Product :=
  match rqs with
  | [] => t
  | rq :: rqs' => serve_all rqs' (serve rq t).2
  end.



(** A computation that, when it raises, has not changed the table. *)
Definition fails_clean {A} (m : M A) : Prop :=
  ∀ w e, (m w).1 = Raise e → table (m w).2 = table w.

(** ** [config.py] *)

Module config.
(** [os.environ.get(name)] in an f-string field: the value of the variable,
    or the text of [None] when it is not set.  [environ] is the environment
    after [load_dotenv()]. *)
Definition environ_get (environ : gmap string string) (name : string) : string :=
  default "None"%string (environ !! name).

Definition SQLALCHEMY_DATABASE_URI (environ : gmap string string) : string :=
  "mysql+pymysql://" +:+ environ_get environ "DB_USER" +:+ ":"
    +:+ environ_get environ "DB_PASSWORD" +:+ "@"
    +:+ environ_get environ "DB_HOST" +:+ ":3307/"
    +:+ environ_get environ "DB_NAME".
End config.

(** * Properties *)

(** ** The flush *)

Lemma flush_updates_none (t : gmap Z db_models.Product) :
  flush_updates ∅ t = inr t.
Proof.
  unfold flush_updates. rewrite decide_True by apply map_Forall_empty.
  f_equal. apply map_eq; intros k. rewrite map_lookup_imap.
  destruct (t !! k) eqn:E; cbn; [by rewrite lookup_empty | done].
Qed.

Lemma flush_updates_one (t : gmap Z db_models.Product) k r r' :
  t !! k = Some r →
  flush_updates {[ k := r' ]} t =
    if db_models.Integer_fits (db_models.quantity r')
    then inr (<[ k := r' ]> t) else inl DataError.
Proof.
  intros Hk. unfold flush_updates.
  destruct (db_models.Integer_fits (db_models.quantity r')) eqn:Hq.
  - rewrite decide_True by (by apply map_Forall_singleton).
    f_equal. apply map_eq; intros j. rewrite map_lookup_imap.
    destruct (decide (j = k)) as [->|Hne].
    + by rewrite Hk, lookup_insert_eq; cbn; rewrite lookup_singleton_eq.
    + rewrite lookup_insert_ne by done.
      destruct (t !! j); cbn; [by rewrite lookup_singleton_ne | done].
  - rewrite decide_False; [done|].
    intros H. apply map_Forall_singleton in H. congruence.
Qed.

Lemma assigned_objects_clean (s : Session) :
  dirty s = ∅ → assigned_objects s = ∅.
Proof.
  intros Hd. unfold assigned_objects. rewrite Hd.
  apply map_eq; intros k. rewrite lookup_empty.
  apply map_lookup_filter_None. right. intros r _ Hk; cbn in Hk.
  by apply not_elem_of_empty in Hk.
Qed.

Lemma assigned_objects_one (s : Session) (k : Z) (r : db_models.Product)
    (d : gset Z) :
  identity s = {[ k := r ]} → dirty s = {[ k ]} ∪ d →
  assigned_objects s = {[ k := r ]}.
Proof.
  intros Hi Hd. unfold assigned_objects. rewrite Hi, Hd.
  apply map_filter_singleton_True. cbn.
  by apply elem_of_union_l, elem_of_singleton.
Qed.

Lemma flush_deletes_empty (t : gmap Z db_models.Product) :
  flush_deletes ∅ t = t.
Proof.
  unfold flush_deletes. apply map_filter_id.
  intros k r _; cbn. apply not_elem_of_empty.
Qed.

Lemma flush_deletes_singleton (t : gmap Z db_models.Product) k :
  flush_deletes ({[ k ]} ∪ ∅) t = delete k t.
Proof.
  unfold flush_deletes. rewrite (right_id_L ∅ (∪)).
  apply map_eq; intros j.
  destruct (decide (j = k)) as [->|Hne].
  - rewrite lookup_delete_eq. apply map_lookup_filter_None.
    right; intros x _ Hk; cbn in Hk. by apply Hk, elem_of_singleton.
  - rewrite lookup_delete_ne by done.
    destruct (t !! j) eqn:E.
    + apply map_lookup_filter_Some. split; [done|].
      cbn. by apply not_elem_of_singleton_2.
    + apply map_lookup_filter_None. by left.
Qed.

Lemma loaded_one (k : Z) (r : db_models.Product) :
  (∅ : gmap Z db_models.Product) ∪ {[ k := r ]} = {[ k := r ]}.
Proof. apply (left_id_L ∅ (∪)). Qed.

(** Unfolding a run of the service down to the table and the session. *)
Ltac run :=
  cbv [serve startup app get_db greet get_all_products get_product_by_id
       add_product update_product delete_product_from_id init_db
       bind ret raise try_finally try_except session close rollback commit
       round_trip load query_count query_all query_filter_id_first getobj
       setattr add delete_obj print boot set_db set_table blank flush];
  cbn [table db faults stdout new identity dirty deleted live fst snd].

(** ** One request on reliable storage *)

Lemma serve_GET_products_id (t : gmap Z db_models.Product) id :
  serve (GET_products_id id) t =
    match t !! id with
    | Some r => (Ok (Row r), t)
    | None =>
        (Ok (Text ("Product with id " +:+ str_int id
                   +:+ " not found, please verify the id, or try by name.")), t)
    end.
Proof.
  run. destruct (t !! id) as [r|]; run; [|done].
  by rewrite loaded_one, lookup_singleton_eq.
Qed.

Lemma serve_POST_products (t : gmap Z db_models.Product) p product :
  serve (POST_products p product) t =
    if db_models.Integer_fits (models.id product)
       && db_models.Integer_fits (models.quantity product)
    then
      match t !! models.id product with
      | Some _ => (Raise (IntegrityError (models.id product)), t)
      | None =>
          (Ok (Echo product),
           <[ models.id product := db_models.of_model_dump product ]> t)
      end
    else (Raise DataError, t).
Proof.
  run. rewrite assigned_objects_clean, flush_updates_none by done. cbn.
  destruct (db_models.Integer_fits (models.id product)
            && db_models.Integer_fits (models.quantity product)); [|done].
  destruct (t !! models.id product); cbn; [done|].
  by rewrite flush_deletes_empty.
Qed.

Lemma serve_PUT_products (t : gmap Z db_models.Product) id product :
  serve (PUT_products id product) t =
    match t !! id with
    | Some r =>
        if db_models.Integer_fits (models.quantity product)
        then
          (Ok (Text ("Information for product id: " +:+ str_int id
                     +:+ " and name: " +:+ models.name product +:+ " updated")),
           <[ id := assigned product r ]> t)
        else (Raise DataError, t)
    | None => (Ok (Text ("No product with id " +:+ str_int id +:+ " found")), t)
    end.
Proof.
  run. destruct (t !! id) as [r|] eqn:E; run; [|done].
  rewrite loaded_one.
  do 4 (rewrite lookup_singleton_eq, insert_singleton_eq; run).
  erewrite assigned_objects_one by (cbn; reflexivity).
  rewrite (flush_updates_one _ _ r) by done. cbn.
  destruct (db_models.Integer_fits (models.quantity product)); [|done].
  cbn. by rewrite flush_deletes_empty.
Qed.

Lemma serve_DELETE_products_del_id (t : gmap Z db_models.Product) id :
  serve (DELETE_products_del_id id) t =
    match t !! id with
    | Some _ =>
        (Ok (Text ("Product with id " +:+ str_int id +:+ " deleted successfully.")),
         delete id t)
    | None =>
        (Ok (Text ("Product Not found, please check the " +:+ str_int id
                   +:+ " again")), t)
    end.
Proof.
  run. destruct (t !! id) as [r|] eqn:E; run; [|done].
  rewrite assigned_objects_clean, flush_updates_none by done. cbn.
  by rewrite flush_deletes_singleton.
Qed.

Lemma encode_all_loaded (t : gmap Z db_models.Product) l w :
  identity (db w) = t →
  Forall (λ kr, t !! kr.1 = Some kr.2) l →
  encode_all l.*1 w = (Ok l.*2, w).
Proof.
  intros Hid. induction 1 as [|[k r] l Hk _ IH]; [done|].
  cbn in *. unfold bind at 1. unfold getobj. rewrite Hid, Hk.
  unfold bind at 1. rewrite IH. done.
Qed.

Lemma serve_GET_products (t : gmap Z db_models.Product) :
  serve GET_products t = (Ok (Rows (map_to_list t).*2), t).
Proof.
  run. rewrite (encode_all_loaded t); cbn; [done| apply (left_id_L ∅ (∪)) |].
  apply Forall_forall. intros [k r] Hin. by apply elem_of_map_to_list in Hin.
Qed.

(** ** Process start *)

Lemma seeded_rows : seeded = {[ 1 := phone; 3 := charger; 4 := laptop ]}.
Proof. vm_compute. reflexivity. Qed.

Lemma startup_empty : startup ∅ = seeded.
Proof. reflexivity. Qed.

Lemma startup_non_empty (t : gmap Z db_models.Product) :
  t ≠ ∅ → startup t = t.
Proof.
  intros Hne. apply map_size_non_empty_iff in Hne.
  run. destruct (0 <? Z.of_nat (size t)) eqn:E; [done|].
  apply Z.ltb_ge in E. lia.
Qed.

(** ** Process start on unreliable storage *)

Lemma init_db_count_fails (t : gmap Z db_models.Product) fs :
  init_db (boot t (true :: fs)) =
    (Ok tt,
     {| table := t; db := blank false; faults := fs;
        stdout := [LineExn "Error initializing database: "
                           OperationalError] |}).
Proof. reflexivity. Qed.

Lemma init_db_skips (t : gmap Z db_models.Product) fs :
  t ≠ ∅ → hd false fs = false →
  init_db (boot t fs) =
    (Ok tt,
     {| table := t; db := blank false; faults := tl fs;
        stdout := [Line ("Database already has "
                         +:+ str_int (Z.of_nat (size t))
                         +:+ " products. Skipping initialization.")] |}).
Proof.
  intros Hne Hfs. apply map_size_non_empty_iff in Hne.
  assert ((0 <? Z.of_nat (size t)) = true) as E by (apply Z.ltb_lt; lia).
  destruct fs as [|[] fs]; [|done|]; run; by rewrite E.
Qed.

Lemma init_db_commit_fails fs :
  init_db (boot ∅ (false :: true :: fs)) =
    (Ok tt,
     {| table := ∅; db := blank false; faults := fs;
        stdout := [Line "Initializing database with sample data...";
                   LineExn "Error initializing database: "
                           OperationalError] |}).
Proof. reflexivity. Qed.

Lemma init_db_seeds fs :
  hd false fs = false → hd false (tl fs) = false →
  init_db (boot ∅ fs) =
    (Ok tt,
     {| table := seeded; db := blank false; faults := tl (tl fs);
        stdout := [Line "Initializing database with sample data...";
                   Line "Database initialized successfully!"] |}).
Proof.
  destruct fs as [|[] [|[] fs]]; try done; intros _ _; vm_compute; reflexivity.
Qed.

(** ** Computations that only read *)

Lemma reads_only_ret {A} (a : A) : reads_only (ret a).
Proof. done. Qed.

Lemma reads_only_bind {A B} (m : M A) (k : A → M B) :
  reads_only m → (∀ a, reads_only (k a)) → reads_only (bind m k).
Proof.
  intros Hm Hk w. unfold bind. specialize (Hm w).
  destruct (m w) as [[a|e] w']; cbn in *; [|done].
  by rewrite Hk.
Qed.

Lemma reads_only_try_finally {A} (body : M A) (fin : M unit) :
  reads_only body → reads_only fin → reads_only (try_finally body fin).
Proof.
  intros Hb Hf w. unfold try_finally. specialize (Hb w).
  destruct (body w) as [r w']; cbn in *. specialize (Hf w').
  destruct (fin w') as [[u|e] w'']; cbn in *; congruence.
Qed.

Lemma reads_only_round_trip : reads_only round_trip.
Proof. intros w. unfold round_trip. by destruct (faults w) as [|[] fs]. Qed.

Lemma reads_only_getobj o : reads_only (getobj o).
Proof. intros w. unfold getobj. by destruct (identity (db w) !! o). Qed.

Lemma reads_only_encode_all l : reads_only (encode_all l).
Proof.
  induction l as [|o l IH]; cbn; [apply reads_only_ret|].
  apply reads_only_bind; [apply reads_only_getobj | intros r].
  apply reads_only_bind; [apply IH | intros rs; apply reads_only_ret].
Qed.

Lemma reads_only_query_all : reads_only query_all.
Proof.
  apply reads_only_bind; [apply reads_only_round_trip | intros _ w; done].
Qed.

Lemma reads_only_query_filter_id_first id :
  reads_only (query_filter_id_first id).
Proof.
  apply reads_only_bind; [apply reads_only_round_trip | intros _ w].
  by destruct (table w !! id).
Qed.

Lemma reads_only_get_db {A} (endpoint : M A) :
  reads_only endpoint → reads_only (get_db endpoint).
Proof.
  intros H. apply reads_only_bind; [done | intros _].
  by apply reads_only_try_finally.
Qed.

Lemma reads_only_get_all_products : reads_only get_all_products.
Proof.
  apply reads_only_bind; [apply reads_only_query_all | intros l].
  apply reads_only_bind; [apply reads_only_encode_all | intros rs].
  apply reads_only_ret.
Qed.

Lemma reads_only_get_product_by_id id : reads_only (get_product_by_id id).
Proof.
  apply reads_only_bind; [apply reads_only_query_filter_id_first | intros [o|]].
  - apply reads_only_bind; [apply reads_only_getobj | intros r].
    apply reads_only_ret.
  - apply reads_only_ret.
Qed.

(** ** Strings *)

Lemma str_append_assoc (a b c : string) : (a +:+ b) +:+ c = a +:+ b +:+ c.
Proof.
  induction a as [|x a IH]; [done|].
  change (String x ((a +:+ b) +:+ c) = String x (a +:+ b +:+ c)).
  by rewrite IH.
Qed.

Lemma contains_head (x post : string) : contains (x +:+ post) x.
Proof. by exists ""%string, post. Qed.

Lemma contains_append_r (pre s x : string) :
  contains s x → contains (pre +:+ s) x.
Proof.
  intros (p & q & ->). exists (pre +:+ p), q. by rewrite str_append_assoc.
Qed.

(** ** The invariant of the table *)

Lemma keyed_empty : keyed ∅.
Proof. intros k r. by rewrite lookup_empty. Qed.

Lemma keyed_seeded : keyed seeded.
Proof.
  rewrite seeded_rows. intros k r Hk.
  do 2 (apply lookup_insert_Some in Hk as [[<- <-]|[_ Hk]]; [done|]).
  by apply lookup_singleton_Some in Hk as [<- <-].
Qed.

Lemma keyed_insert (t : gmap Z db_models.Product) r :
  keyed t → keyed (<[ db_models.id r := r ]> t).
Proof.
  intros Ht k r' Hk.
  apply lookup_insert_Some in Hk as [[<- <-]|[_ Hk]]; [done | by apply Ht].
Qed.

Lemma keyed_delete (t : gmap Z db_models.Product) k :
  keyed t → keyed (delete k t).
Proof. intros Ht j r Hj. apply lookup_delete_Some in Hj as [_ Hj]. by apply Ht. Qed.

Lemma keyed_startup (t : gmap Z db_models.Product) :
  keyed t → keyed (startup t).
Proof.
  intros Ht. destruct (decide (t = ∅)) as [->|Hne].
  - rewrite startup_empty. apply keyed_seeded.
  - by rewrite startup_non_empty.
Qed.

Lemma keyed_serve rq (t : gmap Z db_models.Product) :
  keyed t → keyed (serve rq t).2.
Proof.
  intros Ht. destruct rq as [| |id|p product|id product|id].
  - done.
  - by rewrite serve_GET_products.
  - rewrite serve_GET_products_id. by destruct (t !! id).
  - rewrite serve_POST_products.
    destruct (_ && _); [|done].
    destruct (t !! models.id product); [done|].
    apply (keyed_insert t (db_models.of_model_dump product) Ht).
  - rewrite serve_PUT_products. destruct (t !! id) as [r|] eqn:E; [|done].
    destruct (db_models.Integer_fits _); [|done].
    cbn. rewrite <- (Ht _ _ E) at 1.
    apply (keyed_insert t (assigned product r) Ht).
  - rewrite serve_DELETE_products_del_id.
    destruct (t !! id); [by apply keyed_delete | done].
Qed.

(** ** The claims about process start *)

(** C1. Seeding at process start ([init_db]) returns normally and writes the
    three fixed rows -- id 1 phone, id 3 Charger, id 4 Laptop, each with its
    fixed description, price and quantity -- exactly when it finds the table
    empty; a table that holds at least one row comes out as it went in, so a
    restart neither duplicates nor alters a row. *)
Theorem init_db_seeds_iff_empty (t : gmap Z db_models.Product) :
  (init_db (boot t [])).1 = Ok tt ∧
  startup t =
    (if decide (t = ∅)
     then {[ 1 := db_models.mkProduct 1 "phone" "samsung" 54000.3%float 15;
             3 := db_models.mkProduct 3 "Charger" "Mobile Charger" 52%float 32;
             4 := db_models.mkProduct 4 "Laptop" "samsung" 740000%float 5 ]}
     else t).
Proof.
  destruct (decide (t = ∅)) as [->|Hne].
  - split; [reflexivity|]. rewrite startup_empty. apply seeded_rows.
  - split; [by rewrite init_db_skips | by apply startup_non_empty].
Qed.

(** C8. Seeding never lets a storage failure escape and never leaves a partial
    write: whatever the table [t] and whichever round trips fail, [init_db]
    returns normally with its session closed and its unit of work dropped; of
    the failure list it consumes a prefix [used], and if a failure is among
    them the table is still [t].  The table that comes out is [t] or, from an
    empty table, the three seeded rows. *)
Theorem init_db_atomic_on_failure (t : gmap Z db_models.Product) (fs : list bool) :
  (init_db (boot t fs)).1 = Ok tt ∧
  db (init_db (boot t fs)).2 = blank false ∧
  (∃ used : list bool,
     fs = used ++ faults (init_db (boot t fs)).2 ∧
     (true ∈ used → table (init_db (boot t fs)).2 = t)) ∧
  (table (init_db (boot t fs)).2 = t ∨
   t = ∅ ∧ table (init_db (boot t fs)).2 = seeded).
Proof.
  destruct fs as [|[] fs].
  - (* no failure to come *)
    destruct (decide (t = ∅)) as [->|Hne].
    + rewrite init_db_seeds by done. cbn.
      repeat split; [|by right]. exists []. split; [done|]. by intros ?%elem_of_nil.
    + rewrite init_db_skips by done. cbn.
      repeat split; [|by left]. exists []. split; [done|]. by intros ?%elem_of_nil.
  - (* the count fails *)
    rewrite init_db_count_fails. cbn.
    repeat split; [|by left]. by exists [true].
  - destruct (decide (t = ∅)) as [->|Hne].
    + destruct fs as [|[] fs].
      * rewrite init_db_seeds by done. cbn.
        repeat split; [|by right]. exists [false]. split; [done|].
        by intros [?|?%elem_of_nil]%elem_of_cons.
      * (* the commit fails *)
        rewrite init_db_commit_fails. cbn.
        repeat split; [|by left]. by exists [false; true].
      * rewrite init_db_seeds by done. cbn.
        repeat split; [|by right]. exists [false; false]. split; [done|].
        by intros [?|[?|?%elem_of_nil]%elem_of_cons]%elem_of_cons.
    + rewrite init_db_skips by done. cbn.
      repeat split; [|by left]. exists [false]. split; [done|].
      by intros [?|?%elem_of_nil]%elem_of_cons.
Qed.

(** Whatever the body of the [try] does, the [except] and [finally] of
    [init_db] turn it into a normal return with the session closed. *)
Lemma init_db_handlers_absorb (body : M unit) (w : World) :
  let end_ :=
    try_finally
      (try_except body
         (λ e, print (LineExn "Error initializing database: " e) ;; rollback))
      close w in
  end_.1 = Ok tt ∧ db end_.2 = blank false.
Proof.
  cbv [try_finally try_except bind print rollback close set_db blank].
  by destruct (body w) as [[[]|e] w'].
Qed.

(** ** The claims about reading *)

(** C2. Get-by-id answers with the stored row when the table has a row under
    the requested id, and otherwise with the literal not-found text, which
    contains the decimal form of the id; the table is not changed.  On the
    seeded table, id 1 gives the row named phone with price 54000.3 and
    quantity 15, and id 999 gives the not-found text, which contains 999. *)
Theorem get_product_by_id_row_or_message :
  (∀ (t : gmap Z db_models.Product) (id : Z),
     serve (GET_products_id id) t =
       match t !! id with
       | Some r => (Ok (Row r), t)
       | None =>
           (Ok (Text ("Product with id " +:+ str_int id
                      +:+ " not found, please verify the id, or try by name.")),
            t)
       end) ∧
  (∀ id : Z,
     contains ("Product with id " +:+ str_int id
               +:+ " not found, please verify the id, or try by name.")
              (str_int id)) ∧
  (serve (GET_products_id 1) seeded).1 =
    Ok (Row (db_models.mkProduct 1 "phone" "samsung" 54000.3%float 15)) ∧
  (∃ s : string,
     (serve (GET_products_id 999) seeded).1 = Ok (Text s) ∧ contains s "999").
Proof.
  split; [apply serve_GET_products_id|].
  split; [intros id; apply contains_append_r, contains_head|].
  split; [vm_compute; reflexivity|].
  exists "Product with id 999 not found, please verify the id, or try by name."%string.
  split; [vm_compute; reflexivity|].
  by exists "Product with id "%string,
            " not found, please verify the id, or try by name."%string.
Qed.

(** C10. The two read operations never write: from any world -- any table,
    any session left behind, any failures to come -- the table after
    list-all and after get-by-id is the table before, whether the lookup
    finds a row or not and whether the request succeeds or fails. *)
Theorem reads_leave_table (w : World) (id : Z) :
  table (app GET_products w).2 = table w ∧
  table (app (GET_products_id id) w).2 = table w.
Proof.
  split.
  - apply (reads_only_get_db _ reads_only_get_all_products).
  - apply (reads_only_get_db _ (reads_only_get_product_by_id id)).
Qed.

(** Listing: the rows of the table, in the order of the engine. *)
Lemma get_all_products_lists_table (t : gmap Z db_models.Product) :
  ∃ l, serve GET_products t = (Ok (Rows l), t) ∧
       ∀ r, r ∈ l ↔ ∃ k, t !! k = Some r.
Proof.
  exists (map_to_list t).*2. split; [apply serve_GET_products|].
  intros r. rewrite list_elem_of_fmap. split.
  - intros ([k r'] & -> & Hin). exists k. by apply elem_of_map_to_list.
  - intros [k Hk]. exists (k, r). split; [done|]. by apply elem_of_map_to_list.
Qed.

Lemma get_all_products_empty : serve GET_products ∅ = (Ok (Rows []), ∅).
Proof. reflexivity. Qed.

Lemma get_all_products_seeded :
  ∃ l, (serve GET_products seeded).1 = Ok (Rows l) ∧ l ≡ₚ [phone; charger; laptop].
Proof.
  eexists. split; [vm_compute; reflexivity|].
  apply Permutation_cons_app with (l1 := [phone]) (l2 := [laptop]). apply perm_swap.
Qed.

(** ** The claims about create *)







(** ** The claims about update *)

Lemma assigned_fields (product : models.Product) (r : db_models.Product) :
  assigned product r =
    db_models.mkProduct (db_models.id r) (models.name product)
      (models.description product) (models.price product)
      (models.quantity product).
Proof. reflexivity. Qed.



(** The update example: a new name for id 1. *)
Lemma update_product_phone_pro :
  serve (PUT_products 1
           (models.mkProduct 1 "Phone Pro" "samsung" 54000.3%float 15)) seeded
    = (Ok (Text "Information for product id: 1 and name: Phone Pro updated"),
       <[ 1 := db_models.mkProduct 1 "Phone Pro" "samsung" 54000.3%float 15 ]>
         seeded).
Proof. vm_compute. reflexivity. Qed.




(** C9. Update does not look at the id of the payload.  In a table where
    every row is stored under its own id, an update of the row under [k]
    with a payload whose id is another one leaves that row under [k]: after
    a successful update with id [k] and the payload's name, description,
    price and quantity, after one that raises as it was.  The row under the
    payload's id, if there is one, and every other row are as before, no
    row appears or disappears, and every row is still stored under its own
    id. *)
Theorem update_product_ignores_payload_id (t : gmap Z db_models.Product)
    (k : Z) (r : db_models.Product) (product : models.Product) :
  keyed t → t !! k = Some r → models.id product ≠ k →
  (serve (PUT_products k product) t).2 !! k =
    Some (match (serve (PUT_products k product) t).1 with
          | Ok _ =>
              db_models.mkProduct k (models.name product)
                (models.description product) (models.price product)
                (models.quantity product)
          | Raise _ => r
          end) ∧
  (serve (PUT_products k product) t).2 !! models.id product
    = t !! models.id product ∧
  (∀ j : Z, j ≠ k → (serve (PUT_products k product) t).2 !! j = t !! j) ∧
  dom (serve (PUT_products k product) t).2 = dom t ∧
  keyed (serve (PUT_products k product) t).2.
Proof.
  intros Ht Hk Hne.
  split; [|split; [|split; [|split]]]; [| | | |by apply keyed_serve].
  all: rewrite serve_PUT_products, Hk.
  all: destruct (db_models.Integer_fits _); cbn; try done.
  - by rewrite lookup_insert_eq, assigned_fields, (Ht _ _ Hk).
  - by rewrite lookup_insert_ne.
  - intros j Hj. by rewrite lookup_insert_ne.
  - apply dom_insert_lookup_L. by exists r.
Qed.

Lemma update_product_ignores_payload_id_witness :
  keyed seeded ∧ seeded !! 1 = Some phone ∧ models.id phone_pro_9 ≠ 1 ∧
  (serve (PUT_products 1 phone_pro_9) seeded).2 !! 1 =
    Some (db_models.mkProduct 1 "Phone Pro" "samsung" 54000.3%float 15) ∧
  (serve (PUT_products 1 phone_pro_9) seeded).2 !! 9 = seeded !! 9.
Proof.
  assert (seeded !! 1 = Some phone) as Hk by (vm_compute; reflexivity).
  assert (models.id phone_pro_9 ≠ 1) as Hne by discriminate.
  split; [exact keyed_seeded|]. split; [exact Hk|]. split; [exact Hne|].
  destruct (update_product_ignores_payload_id seeded 1 phone phone_pro_9
              keyed_seeded Hk Hne) as (H1 & H2 & _).
  split; [|exact H2].
  rewrite H1. vm_compute. reflexivity.
Defined.

(** ** The claim about delete *)

(** C7. Delete, when a row is stored under the id, removes that row and
    answers with the literal success text, which contains the decimal form of
    the id; when no row is stored under the id it answers with the literal
    not-found text and the table is as before.  After any delete no row is
    stored under the id, so a second delete of the same id answers with the
    not-found text, raises nothing and leaves the table as the first one
    left it; a get-by-id of that id answers not-found as well. *)
Theorem delete_product_found_or_message (t : gmap Z db_models.Product) (id : Z) :
  serve (DELETE_products_del_id id) t =
    match t !! id with
    | Some _ =>
        (Ok (Text ("Product with id " +:+ str_int id +:+ " deleted successfully.")),
         delete id t)
    | None =>
        (Ok (Text ("Product Not found, please check the " +:+ str_int id
                   +:+ " again")), t)
    end ∧
  contains ("Product with id " +:+ str_int id +:+ " deleted successfully.")
           (str_int id) ∧
  (serve (DELETE_products_del_id id) t).2 !! id = None ∧
  serve (DELETE_products_del_id id) (serve (DELETE_products_del_id id) t).2 =
    (Ok (Text ("Product Not found, please check the " +:+ str_int id
               +:+ " again")),
     (serve (DELETE_products_del_id id) t).2) ∧
  (serve (GET_products_id id) (serve (DELETE_products_del_id id) t).2).1 =
    Ok (Text ("Product with id " +:+ str_int id
              +:+ " not found, please verify the id, or try by name.")).
Proof.
  assert ((serve (DELETE_products_del_id id) t).2 !! id = None) as Hgone.
  { rewrite serve_DELETE_products_del_id.
    destruct (t !! id) eqn:E; cbn; [apply lookup_delete_eq | done]. }
  split; [apply serve_DELETE_products_del_id|].
  split; [apply contains_append_r, contains_head|].
  split; [done|]. split.
  - by rewrite (serve_DELETE_products_del_id (serve _ t).2), Hgone.
  - by rewrite (serve_GET_products_id (serve _ t).2), Hgone.
Qed.

(** The delete example: id 4, twice. *)
Lemma delete_product_4_twice :
  serve (DELETE_products_del_id 4) seeded
    = (Ok (Text "Product with id 4 deleted successfully."), delete 4 seeded) ∧
  serve (DELETE_products_del_id 4) (delete 4 seeded)
    = (Ok (Text "Product Not found, please check the 4 again"), delete 4 seeded).
Proof. split; vm_compute; reflexivity. Qed.

(** * Further properties of the service *)

(** ** Every request releases its session *)

Lemma get_db_closes {A} (endpoint : M A) (w : World) :
  db (get_db endpoint w).2 = blank false.
Proof.
  cbv [get_db bind session try_finally close set_db].
  by destruct (endpoint _) as [r w'].
Qed.

(** X1. Every route that takes a session from [get_db] leaves it closed with
    an empty unit of work, from any world and whether the handler returns or
    raises; the root route takes no session and leaves the world as it is. *)
Theorem app_releases_session (rq : request) (w : World) :
  match rq with
  | GET_root => app rq w = (Ok (Text "This is Malay"), w)
  | _ => db (app rq w).2 = blank false
  end.
Proof. destruct rq; [done | apply get_db_closes ..]. Qed.

(** X2. A request does not see the session an earlier one left behind: the
    data routes start from a session of their own, so the response and the
    world after them are the same whatever session the world held before. *)
Theorem app_ignores_old_session (rq : request) (w : World) (s : Session) :
  (app rq (set_db s w)).1 = (app rq w).1 ∧
  table (app rq (set_db s w)).2 = table (app rq w).2 ∧
  match rq with
  | GET_root => True
  | _ => app rq (set_db s w) = app rq w
  end.
Proof. by destruct rq. Qed.

(** ** A request that fails writes nothing *)

Lemma fails_clean_reads_only {A} (m : M A) : reads_only m → fails_clean m.
Proof. intros H w e _. apply H. Qed.

Lemma fails_clean_bind {A B} (m : M A) (k : A → M B) :
  reads_only m → (∀ a, fails_clean (k a)) → fails_clean (bind m k).
Proof.
  intros Hm Hk w e. unfold bind. specialize (Hm w).
  destruct (m w) as [[a|e'] w']; cbn in *; [|done].
  intros He. by rewrite (Hk a w' e He).
Qed.

Lemma fails_clean_then_ret {A B} (m : M A) (b : B) :
  fails_clean m → fails_clean (bind m (λ _, ret b)).
Proof.
  intros Hm w e. unfold bind, ret. specialize (Hm w).
  destruct (m w) as [[a|e'] w']; cbn in *; [done|].
  intros [= <-]. by apply (Hm e').
Qed.

Lemma fails_clean_commit : fails_clean commit.
Proof.
  intros w e. unfold commit, round_trip.
  destruct (faults w) as [|[] fs]; cbn; try done.
  all: by destruct (flush _ _).
Qed.

Lemma fails_clean_get_db {A} (endpoint : M A) :
  fails_clean endpoint → fails_clean (get_db endpoint).
Proof.
  intros H w e. cbv [get_db bind session try_finally close].
  specialize (H (set_db (blank true) w) e).
  destruct (endpoint _) as [r w']; cbn in *. done.
Qed.

Lemma reads_only_setattr f o : reads_only (setattr f o).
Proof. intros w. unfold setattr. by destruct (identity (db w) !! o). Qed.

Lemma fails_clean_add_product product : fails_clean (add_product product).
Proof.
  apply fails_clean_bind; [done | intros _].
  apply fails_clean_then_ret, fails_clean_commit.
Qed.

Lemma fails_clean_update_product id product :
  fails_clean (update_product id product).
Proof.
  apply fails_clean_bind; [apply reads_only_query_filter_id_first|].
  intros [o|]; [|by apply fails_clean_reads_only].
  do 4 (apply fails_clean_bind; [apply reads_only_setattr | intros _]).
  apply fails_clean_then_ret, fails_clean_commit.
Qed.

Lemma fails_clean_delete_product_from_id id :
  fails_clean (delete_product_from_id id).
Proof.
  apply fails_clean_bind; [apply reads_only_query_filter_id_first|].
  intros [o|]; [|by apply fails_clean_reads_only].
  apply fails_clean_bind; [done | intros _].
  apply fails_clean_then_ret, fails_clean_commit.
Qed.

(** X3. A request that raises -- because a round trip fails or because the
    id of a create is taken -- has written nothing: from any world and for
    any failures to come, the table after it is the table before. *)
Theorem app_failure_writes_nothing (rq : request) (w : World) (e : exn) :
  (app rq w).1 = Raise e → table (app rq w).2 = table w.
Proof.
  revert w e. change (fails_clean (app rq)). destruct rq; cbn [app].
  - by apply fails_clean_reads_only.
  - apply fails_clean_reads_only, reads_only_get_db, reads_only_get_all_products.
  - apply fails_clean_reads_only, reads_only_get_db,
      reads_only_get_product_by_id.
  - apply fails_clean_get_db, fails_clean_add_product.
  - apply fails_clean_get_db, fails_clean_update_product.
  - apply fails_clean_get_db, fails_clean_delete_product_from_id.
Qed.

Lemma app_failure_writes_nothing_witness :
  (app (PUT_products 1 phone_pro) (boot seeded [false; true])).1
    = Raise OperationalError ∧
  table (app (PUT_products 1 phone_pro) (boot seeded [false; true])).2
    = table (boot seeded [false; true]).
Proof.
  assert ((app (PUT_products 1 phone_pro) (boot seeded [false; true])).1
            = Raise OperationalError) as H by (vm_compute; reflexivity).
  split; [exact H|].
  exact (app_failure_writes_nothing _ _ _ H).
Defined.


(** X5. When the first round trip of a request fails, every data route
    raises the storage error, with the table as it was and the session
    closed; the root route answers all the same. *)
Theorem app_storage_unreachable (rq : request)
    (t : gmap Z db_models.Product) (fs : list bool) :
  app rq (boot t (true :: fs)) =
    match rq with
    | GET_root => (Ok (Text "This is Malay"), boot t (true :: fs))
    | _ => (Raise OperationalError, boot t fs)
    end.
Proof. by destruct rq. Qed.

(** ** What a request changes *)



(** X7. The keys of the table after a request: a create adds the body id
    when its id and quantity fit the [Integer] column (nothing new when the
    id is taken) and adds nothing when they do not, a delete removes the
    path id, and list, get-by-id and update leave the keys as they are -- an
    update of an id that is not stored does not insert it. *)
Theorem serve_dom (rq : request) (t : gmap Z db_models.Product) :
  dom (serve rq t).2 =
    match rq with
    | POST_products _ product =>
        if db_models.Integer_fits (models.id product)
           && db_models.Integer_fits (models.quantity product)
        then {[ models.id product ]} ∪ dom t
        else dom t
    | DELETE_products_del_id id => dom t ∖ {[ id ]}
    | _ => dom t
    end.
Proof.
  destruct rq as [| |id|p product|id product|id].
  - done.
  - by rewrite serve_GET_products.
  - rewrite serve_GET_products_id. by destruct (t !! id).
  - rewrite serve_POST_products. destruct (_ && _); [|done].
    destruct (t !! models.id product) as [r|] eqn:E; cbn.
    + apply elem_of_dom_2 in E. apply set_eq; intros x.
      rewrite elem_of_union, elem_of_singleton.
      split; [by right | by intros [->|?]].
    + apply dom_insert_L.
  - rewrite serve_PUT_products. destruct (t !! id) as [r|] eqn:E; [|done].
    destruct (db_models.Integer_fits _); [|done].
    cbn. apply dom_insert_lookup_L. by exists r.
  - rewrite serve_DELETE_products_del_id.
    destruct (t !! id) as [r|] eqn:E; cbn.
    + apply dom_delete_L.
    + apply not_elem_of_dom in E. apply set_eq; intros x.
      rewrite elem_of_difference, elem_of_singleton.
      split; [intros Hx; split; [done | by intros ->] | by intros [? _]].
Qed.

(** ** How requests compose *)





(** ** Process start, again *)

(** X10. After process start on reliable storage the table is never empty,
    and starting again changes nothing: seeding is idempotent. *)
Theorem startup_idempotent (t : gmap Z db_models.Product) :
  startup t ≠ ∅ ∧ startup (startup t) = startup t.
Proof.
  assert (startup t ≠ ∅) as Hne.
  { destruct (decide (t = ∅)) as [->|Hne]; [|by rewrite startup_non_empty].
    rewrite startup_empty. intros H.
    assert (seeded !! 1 = (∅ : gmap Z db_models.Product) !! 1) as H1
      by (by rewrite H).
    vm_compute in H1. discriminate H1. }
  split; [done | by apply startup_non_empty].
Qed.

(** ** The invariant, over histories *)

Lemma keyed_serve_all rqs (t : gmap Z db_models.Product) :
  keyed t → keyed (serve_all rqs t).
Proof.
  revert t. induction rqs as [|rq rqs IH]; intros t Ht; [done|].
  cbn. by apply IH, keyed_serve.
Qed.

(** X11. Every row is stored under its own id, whatever happened before: on
    a table that has this property at process start, after seeding and any
    sequence of requests a get-by-id that answers with a row answers with a
    row whose id is the id asked for. *)
Theorem get_product_by_id_returns_asked_id (t : gmap Z db_models.Product)
    (rqs : list request) (id : Z) (r : db_models.Product) :
  keyed t →
  (serve (GET_products_id id) (serve_all rqs (startup t))).1 = Ok (Row r) →
  db_models.id r = id.
Proof.
  intros Ht. rewrite serve_GET_products_id.
  pose proof (keyed_serve_all rqs _ (keyed_startup t Ht)) as Hk.
  destruct (serve_all rqs (startup t) !! id) as [r'|] eqn:E; [|done].
  intros [= <-]. by apply Hk.
Qed.

Lemma get_product_by_id_returns_asked_id_witness :
  keyed ∅ ∧
  (serve (GET_products_id 1)
     (serve_all [POST_products "2" mouse; PUT_products 1 phone_pro_9]
        (startup ∅))).1
    = Ok (Row (db_models.mkProduct 1 "Phone Pro" "samsung" 54000.3%float 15)) ∧
  db_models.id (db_models.mkProduct 1 "Phone Pro" "samsung" 54000.3%float 15)
    = 1.
Proof.
  assert ((serve (GET_products_id 1)
     (serve_all [POST_products "2" mouse; PUT_products 1 phone_pro_9]
        (startup ∅))).1
    = Ok (Row (db_models.mkProduct 1 "Phone Pro" "samsung" 54000.3%float 15)))
    as H by (vm_compute; reflexivity).
  split; [exact keyed_empty|]. split; [exact H|].
  exact (get_product_by_id_returns_asked_id ∅ _ 1 _ keyed_empty H).
Defined.

(** ** Listing *)

(** X12. List-all answers with every stored row exactly once: on a table
    whose rows are stored under their own ids, the list has as many entries
    as the table has rows, no two entries share an id, and a row is in the
    list exactly when it is the row stored under its id; the table is not
    changed. *)
Theorem get_all_products_each_row_once (t : gmap Z db_models.Product) :
  keyed t →
  ∃ l : list db_models.Product,
    serve GET_products t = (Ok (Rows l), t) ∧
    length l = size t ∧
    NoDup (db_models.id <$> l) ∧
    ∀ r, r ∈ l ↔ t !! db_models.id r = Some r.
Proof.
  intros Ht. exists (map_to_list t).*2.
  assert (db_models.id <$> (map_to_list t).*2 = (map_to_list t).*1) as Hids.
  { rewrite <- list_fmap_compose. apply list_fmap_ext.
    intros i [k r] Hi. cbn. apply Ht, elem_of_map_to_list.
    by apply list_elem_of_lookup_2 in Hi. }
  split; [apply serve_GET_products|]. split; [|split].
  - by rewrite length_fmap, length_map_to_list.
  - rewrite Hids. apply NoDup_fst_map_to_list.
  - intros r. rewrite list_elem_of_fmap. split.
    + intros ([k r'] & -> & Hin). apply elem_of_map_to_list in Hin.
      cbn. by rewrite (Ht _ _ Hin).
    + intros Hr. exists (db_models.id r, r). split; [done|].
      by apply elem_of_map_to_list.
Qed.

Lemma get_all_products_each_row_once_witness :
  keyed seeded ∧
  ∃ l : list db_models.Product,
    serve GET_products seeded = (Ok (Rows l), seeded) ∧
    length l = size seeded ∧
    NoDup (db_models.id <$> l) ∧
    ∀ r, r ∈ l ↔ seeded !! db_models.id r = Some r.
Proof.
  split; [exact keyed_seeded|].
  exact (get_all_products_each_row_once seeded keyed_seeded).
Defined.

(** ** The console of [init_db] *)

(** X13. What [init_db] prints tells what it did, whatever fails: the line
    of success is printed only when the table was empty and now holds the
    three seeded rows, and a line that starts with the error text, whatever
    exception it reports, only when the table is what it was. *)
Theorem init_db_console_is_truthful (t : gmap Z db_models.Product)
    (fs : list bool) :
  (Line "Database initialized successfully!" ∈ stdout (init_db (boot t fs)).2 →
   t = ∅ ∧ table (init_db (boot t fs)).2 = seeded) ∧
  (∀ e, LineExn "Error initializing database: " e
          ∈ stdout (init_db (boot t fs)).2 →
        table (init_db (boot t fs)).2 = t).
Proof.
  destruct fs as [|[] fs].
  - destruct (decide (t = ∅)) as [->|Hne].
    + rewrite init_db_seeds by done. cbn. split; [done|].
      by intros e [?|[?|?%elem_of_nil]%elem_of_cons]%elem_of_cons.
    + rewrite init_db_skips by done. cbn. split; [|done].
      by intros [?|?%elem_of_nil]%elem_of_cons.
  - rewrite init_db_count_fails. cbn. split; [|done].
    by intros [?|?%elem_of_nil]%elem_of_cons.
  - destruct (decide (t = ∅)) as [->|Hne].
    + destruct fs as [|[] fs].
      * rewrite init_db_seeds by done. cbn. split; [done|].
        by intros e [?|[?|?%elem_of_nil]%elem_of_cons]%elem_of_cons.
      * rewrite init_db_commit_fails. cbn. split; [|done].
        by intros [?|[?|?%elem_of_nil]%elem_of_cons]%elem_of_cons.
      * rewrite init_db_seeds by done. cbn. split; [done|].
        by intros e [?|[?|?%elem_of_nil]%elem_of_cons]%elem_of_cons.
    + rewrite init_db_skips by done. cbn. split; [|done].
      by intros [?|?%elem_of_nil]%elem_of_cons.
Qed.

Lemma init_db_console_is_truthful_witness :
  LineExn "Error initializing database: " OperationalError
    ∈ stdout (init_db (boot ∅ [false; true])).2 ∧
  table (init_db (boot ∅ [false; true])).2 = ∅.
Proof.
  assert (LineExn "Error initializing database: " OperationalError
            ∈ stdout (init_db (boot ∅ [false; true])).2) as H.
  { rewrite init_db_commit_fails. cbn.
    apply list_elem_of_further, list_elem_of_here. }
  split; [exact H|].
  exact (proj2 (init_db_console_is_truthful ∅ [false; true]) _ H).
Defined.

(** ** The connection string of [config.py] *)

(** X14. The connection string is built without quoting and with the text
    None for a variable that is not set.  So a variable that is not set
    cannot be told from one set to the text None, and a colon can move
    between the user and the password without changing the string: the
    user u:a with password b and the user u with password a:b give the same
    connection string. *)
Theorem database_uri_is_ambiguous (environ : gmap string string)
    (name u a b : string) :
  (environ !! name = None →
   config.SQLALCHEMY_DATABASE_URI (<[ name := "None"%string ]> environ)
     = config.SQLALCHEMY_DATABASE_URI environ) ∧
  config.SQLALCHEMY_DATABASE_URI
    (<[ "DB_USER"%string := u +:+ ":" +:+ a ]>
       (<[ "DB_PASSWORD"%string := b ]> environ))
    = config.SQLALCHEMY_DATABASE_URI
        (<[ "DB_USER"%string := u ]>
           (<[ "DB_PASSWORD"%string := a +:+ ":" +:+ b ]> environ)).
Proof.
  split.
  - intros Hname.
    assert (∀ v, config.environ_get (<[ name := "None"%string ]> environ) v
                 = config.environ_get environ v) as H.
    { intros v. unfold config.environ_get.
      destruct (decide (name = v)) as [<-|Hne].
      - by rewrite lookup_insert_eq, Hname.
      - by rewrite lookup_insert_ne. }
    unfold config.SQLALCHEMY_DATABASE_URI. by rewrite !H.
  - unfold config.SQLALCHEMY_DATABASE_URI, config.environ_get.
    rewrite !lookup_insert_eq.
    rewrite !(lookup_insert_ne _ "DB_USER"%string) by done.
    rewrite !lookup_insert_eq.
    rewrite !(lookup_insert_ne _ "DB_PASSWORD"%string) by done.
    cbn [default]. unfold id. f_equal.
    by rewrite !str_append_assoc.
Qed.

Lemma database_uri_is_ambiguous_witness :
  (∅ : gmap string string) !! "DB_HOST"%string = None ∧
  config.SQLALCHEMY_DATABASE_URI (<[ "DB_HOST"%string := "None"%string ]> ∅)
    = config.SQLALCHEMY_DATABASE_URI ∅.
Proof.
  assert ((∅ : gmap string string) !! "DB_HOST"%string = None) as H
    by reflexivity.
  split; [exact H|].
  exact (proj1 (database_uri_is_ambiguous ∅ "DB_HOST" "" "" "") H).
Defined.

(** ** Where rows come from and where they go *)



(** X16. Only a delete takes an id out of the table: when a row is stored
    under an id and a sequence of requests holds no delete of that id, a row
    is stored under it afterwards -- a failed create or an update never
    loses a row. *)
Theorem only_delete_removes (rqs : list request)
    (t : gmap Z db_models.Product) (id : Z) :
  is_Some (t !! id) →
  Forall (λ rq, match rq with
                | DELETE_products_del_id id' => id' ≠ id
                | _ => True
                end) rqs →
  is_Some (serve_all rqs t !! id).
Proof.
  intros Hid Hrqs. revert t Hid.
  induction Hrqs as [|rq rqs Hrq _ IH]; intros t Hid; [done|].
  cbn. apply IH. apply elem_of_dom. apply elem_of_dom in Hid.
  rewrite serve_dom. destruct rq; try done.
  - destruct (_ && _); [|done]. rewrite elem_of_union. by right.
  - rewrite elem_of_difference, elem_of_singleton. split; [done | congruence].
Qed.

Lemma only_delete_removes_witness :
  is_Some (seeded !! 1) ∧
  Forall (λ rq, match rq with
                | DELETE_products_del_id id' => id' ≠ 1
                | _ => True
                end)
    [POST_products "1" phone_pro; PUT_products 1 phone_pro_9;
     DELETE_products_del_id 4] ∧
  is_Some (serve_all [POST_products "1" phone_pro; PUT_products 1 phone_pro_9;
                      DELETE_products_del_id 4] seeded !! 1).
Proof.
  assert (is_Some (seeded !! 1)) as H by (exists phone; vm_compute; reflexivity).
  assert (Forall (λ rq, match rq with
                | DELETE_products_del_id id' => id' ≠ 1
                | _ => True
                end)
    [POST_products "1" phone_pro; PUT_products 1 phone_pro_9;
     DELETE_products_del_id 4]) as HF.
  { repeat constructor. discriminate. }
  split; [exact H|]. split; [exact HF|].
  exact (only_delete_removes _ seeded 1 H HF).
Defined.
